(** * Mac Notes SQLite plugin: [plaso/parsers/sqlite_plugins/mac_notes.py]

    A shallow embedding of [MacNotesPlugin._GetNoteText] and
    [MacNotesPlugin.ParseZHTMLSTRINGRow], and the properties the
    specification states about them. *)

From Stdlib Require Import Bool Arith List Ascii String ZArith Lia.
From Stdlib Require Import Floats.
Import ListNotations.

Set Warnings "-register-all".

Local Open Scope string_scope.

(** ** Characters and strings *)

Definition newline : ascii := "010"%char.

Definition is_newline (c : ascii) : bool := Ascii.eqb c newline.

Definition nl : string := String newline "".

Definition dquote : ascii := "034"%char.

(** [prefix_drop p s] is [Some r] when [s = p ++ r], the way [str.startswith]
    and a literal in a pattern consume their text. *)
Fixpoint prefix_drop (p s : string) : option string :=
  match p with
  | EmptyString => Some s
  | String a p' =>
      match s with
      | EmptyString => None
      | String b s' => if Ascii.eqb a b then prefix_drop p' s' else None
      end
  end.

Fixpoint contains_char (c : ascii) (s : string) : bool :=
  match s with
  | EmptyString => false
  | String a s' => Ascii.eqb a c || contains_char c s'
  end.

(** [contains sub s]: Python's [sub in s]. *)
Fixpoint contains (sub s : string) : bool :=
  match prefix_drop sub s with
  | Some _ => true
  | None =>
      match s with
      | EmptyString => false
      | String _ s' => contains sub s'
      end
  end.

Fixpoint spaces (n : nat) : string :=
  match n with
  | O => ""
  | S n' => String " " (spaces n')
  end.

(** ** Regular expressions, with the backtracking semantics of Python's [re]

    Only the constructs that the plugin's pattern uses.  A match is searched
    depth first: alternatives left to right, [?] and [*] greedy, and the
    continuation [k] decides whether what follows can still match, which is
    where backtracking happens. *)

Inductive regex : Type :=
| Chr (c : ascii)                 (* a literal character *)
| Lit (s : string)                (* a literal word *)
| Dot                             (* [.]: any character but a newline *)
| Seq (r1 r2 : regex)
| Alt (r1 r2 : regex)             (* [r1|r2] *)
| Opt (r : regex)                 (* [r?] *)
| StarDot.                        (* [.*] *)

(** [.*] against [s]: take as many characters as possible, give back one at
    a time until the continuation accepts. *)
Fixpoint star_dot {A : Type} (s : string) (k : string -> option A) : option A :=
  match s with
  | EmptyString => k ""
  | String c s' =>
      if is_newline c then k s
      else match star_dot s' k with
           | Some r => Some r
           | None => k s
           end
  end.

(** [rmatch r s k]: match [r] at the start of [s], then hand the rest of the
    text to [k]. *)
Fixpoint rmatch {A : Type} (r : regex) (s : string) (k : string -> option A)
  : option A :=
  match r with
  | Chr c =>
      match s with
      | String a s' => if Ascii.eqb a c then k s' else None
      | EmptyString => None
      end
  | Lit w =>
      match prefix_drop w s with
      | Some s' => k s'
      | None => None
      end
  | Dot =>
      match s with
      | String a s' => if is_newline a then None else k s'
      | EmptyString => None
      end
  | Seq r1 r2 => rmatch r1 s (fun s' => rmatch r2 s' k)
  | Alt r1 r2 =>
      match rmatch r1 s k with
      | Some x => Some x
      | None => rmatch r2 s k
      end
  | Opt r' =>
      match rmatch r' s k with
      | Some x => Some x
      | None => k s
      end
  | StarDot => star_dot s k
  end.

(** [re_match r s]: the text left after the match of [r] at the start of
    [s], [None] when [r] does not match there. *)
Definition re_match (r : regex) (s : string) : option string :=
  rmatch r s Some.

(** [re.sub(pattern, '', s)].  The scan goes left to right; [skip] counts the
    characters of the current match that are still to be dropped.  An empty
    match removes nothing. *)
Fixpoint sub_scan (r : regex) (skip : nat) (s : string) : string :=
  match s with
  | EmptyString => ""
  | String c s' =>
      match skip with
      | S n => sub_scan r n s'
      | O =>
          match re_match r s with
          | Some rest =>
              if Nat.eqb (String.length s) (String.length rest)
              then String c (sub_scan r 0 s')
              else sub_scan r (String.length s' - String.length rest) s'
          | None => String c (sub_scan r 0 s')
          end
      end
  end.

Definition re_sub (r : regex) (s : string) : string := sub_scan r 0 s.

(** The pattern of [_GetNoteText]:
    [(<\/?(div|body|span|b|table|tr|td|tbody|p).*>\n?)] *)
Definition tag_names : list string :=
  ["div"; "body"; "span"; "b"; "table"; "tr"; "td"; "tbody"; "p"].

Definition tag_alternatives : regex :=
  Alt (Lit "div") (Alt (Lit "body") (Alt (Lit "span") (Alt (Lit "b")
  (Alt (Lit "table") (Alt (Lit "tr") (Alt (Lit "td") (Alt (Lit "tbody")
  (Lit "p")))))))).

Definition tag_pattern : regex :=
  Seq (Chr "<") (Seq (Opt (Chr "/")) (Seq tag_alternatives
  (Seq StarDot (Seq (Chr ">") (Opt (Chr newline)))))).

(** ** Python values, exceptions and the parser mediator *)

(** The values [sqlite3] hands out for a column, as Python objects. *)
Inductive value : Type :=
| VNone
| VInt (z : Z)
| VFloat (f : float)
| VStr (s : string).

(** Truth value testing, as in [if modified_timestamp:]. *)
Definition truthy (v : value) : bool :=
  match v with
  | VNone => false
  | VInt z => negb (Z.eqb z 0)
  | VFloat f => negb (PrimFloat.eqb f 0%float)
  | VStr s => negb (String.eqb s "")
  end.

Inductive exception : Type :=
| TypeError
| AttributeError.

Inductive result (A : Type) : Type :=
| Return (a : A)
| Raise (e : exception).

Arguments Return {A} a.
Arguments Raise {A} e.

(** The time descriptions of [plaso.lib.definitions] that matter to the
    plugin, kept as symbols: [TIME_DESCRIPTION_CREATION] and
    [TIME_DESCRIPTION_LAST_USED] are the two the plugin names,
    [TIME_DESCRIPTION_MODIFICATION] is the framework's description of a
    content modification time. *)
Inductive time_description : Type :=
| TIME_DESCRIPTION_CREATION
| TIME_DESCRIPTION_LAST_USED
| TIME_DESCRIPTION_MODIFICATION.

(** Modelled from the spec: the input of the timestamp normaliser of section
    4.3, which is [dfdatetime.cocoa_time.CocoaTime] and not under src/. The
    plugin only calls its constructor, [CocoaTime(timestamp=...)], taken here
    to keep whatever value it is given; nothing below computes an instant
    from it. *)
Record CocoaTime : Type := mkCocoaTime { timestamp : value }.

(** Modelled from the spec: the TimestampedEvent of section 3, a date with
    its description, built by
    [time_events.DateTimeValuesEvent(date_time, date_time_description)];
    [plaso.containers.time_events] is not under src/. *)
Record DateTimeValuesEvent : Type := mkDateTimeValuesEvent {
  date_time : CocoaTime;
  timestamp_desc : time_description
}.

(** [MacNotesZhtmlstringEventData]: the three attributes start as [None]. *)
Record MacNotesZhtmlstringEventData : Type := mkEventData {
  title : value;
  note_text : value;
  zhtmlstring : value
}.

Definition new_event_data : MacNotesZhtmlstringEventData :=
  {| title := VNone; note_text := VNone; zhtmlstring := VNone |}.

Definition set_title (v : value) (d : MacNotesZhtmlstringEventData) :=
  {| title := v; note_text := note_text d; zhtmlstring := zhtmlstring d |}.

Definition set_zhtmlstring (v : value) (d : MacNotesZhtmlstringEventData) :=
  {| title := title d; note_text := note_text d; zhtmlstring := v |}.

Definition set_note_text (v : value) (d : MacNotesZhtmlstringEventData) :=
  {| title := title d; note_text := v; zhtmlstring := zhtmlstring d |}.

(** Modelled from the spec: the output sink of section 6, which "accepts a
    (TimestampedEvent, ArtifactRecord) pair"; plaso's parser mediator is not
    under src/. It is reduced to the pairs handed to
    [ProduceEventWithEventData], oldest first; what the framework does with
    a pair afterwards is not the plugin's. *)
Definition ParserMediator : Type :=
  list (DateTimeValuesEvent * MacNotesZhtmlstringEventData).

(** Computations that may raise and that act on the mediator. *)
Definition M (A : Type) : Type := ParserMediator -> result A * ParserMediator.

Definition ret {A : Type} (a : A) : M A := fun m => (Return a, m).

Definition bind {A B : Type} (c : M A) (f : A -> M B) : M B :=
  fun m =>
    match c m with
    | (Return a, m') => f a m'
    | (Raise e, m') => (Raise e, m')
    end.

Definition lift {A : Type} (r : result A) : M A := fun m => (r, m).

Notation "x <- c ;; k" := (bind c (fun x => k))
  (at level 61, c at next level, right associativity).
Notation "c ;;; k" := (bind c (fun _ => k))
  (at level 61, right associativity).

(** Modelled from the spec: the one operation of the sink (section 6); it
    takes every pair it is handed and refuses none. *)
Definition ProduceEventWithEventData
  (event : DateTimeValuesEvent) (event_data : MacNotesZhtmlstringEventData)
  : M unit :=
  fun m => (Return tt, (m ++ [(event, event_data)])%list).

(** Modelled from the spec: a row with the named-column lookup of sections
    6 and 9, "getColumn(name) -> optional value"; [VNone] is an absent
    value. *)
Definition Row : Type := string -> value.

(** Modelled from the spec: [SQLitePlugin._GetRowValue], which is not under
    src/, as the accessor of section 9; the query hash, which only keys its
    cache of column positions, is left out. *)
Definition _GetRowValue (row : Row) (value_name : string) : value :=
  row value_name.

Definition mkRow (html created edited name : value) : Row :=
  fun value_name =>
    if String.eqb value_name "zhtmlstring" then html
    else if String.eqb value_name "timestamp" then created
    else if String.eqb value_name "last_modified_time" then edited
    else if String.eqb value_name "title" then name
    else VNone.

(** ** The markup library

    [bs4] is a third-party library: the plugin's functions take it as an
    interface, with the three operations [_GetNoteText] uses. *)
Class MarkupLibrary : Type := {
  soup : Type;
  element : Type;
  (** [BeautifulSoup(markup, features='html.parser')] *)
  BeautifulSoup : value -> result soup;
  (** [soup.body]: the first [body] element, [None] when there is none *)
  soup_body : soup -> option element;
  (** [element.prettify()] *)
  prettify : element -> string
}.

(** ** The plugin *)

Section Plugin.

Context {bs4 : MarkupLibrary}.

(** [MacNotesPlugin._GetNoteText] *)
Definition _GetNoteText (zhtmlstring : value) : result string :=
  match BeautifulSoup zhtmlstring with
  | Raise e => Raise e
  | Return soup =>
      match soup_body soup with
      | None => Raise AttributeError
      | Some body => Return (re_sub tag_pattern (prettify body))
      end
  end.

(** [MacNotesPlugin.ParseZHTMLSTRINGRow] *)
Definition ParseZHTMLSTRINGRow (query : string) (row : Row) : M unit :=
  let event_data := new_event_data in
  let title := _GetRowValue row "title" in
  let event_data := set_title title event_data in
  let zhtmlstring := _GetRowValue row "zhtmlstring" in
  let event_data := set_zhtmlstring zhtmlstring event_data in
  note_text <- lift (_GetNoteText zhtmlstring) ;;
  let event_data := set_note_text (VStr note_text) event_data in
  let create_timestamp := _GetRowValue row "timestamp" in
  let create_date_time := mkCocoaTime create_timestamp in
  let create_event :=
    mkDateTimeValuesEvent create_date_time TIME_DESCRIPTION_CREATION in
  ProduceEventWithEventData create_event event_data ;;;
  let modified_timestamp := _GetRowValue row "last_modified_time" in
  if truthy modified_timestamp then
    let modified_date_time := mkCocoaTime modified_timestamp in
    let modified_event :=
      mkDateTimeValuesEvent modified_date_time TIME_DESCRIPTION_LAST_USED in
    ProduceEventWithEventData modified_event event_data
  else ret tt.

(** The events one row adds to the mediator. *)
Definition row_events (query : string) (row : Row)
  : list (DateTimeValuesEvent * MacNotesZhtmlstringEventData) :=
  snd (ParseZHTMLSTRINGRow query row []).

End Plugin.

(** ** A model of the markup library *)

Module Bs4.

(** Whitespace as [str.strip] and the tokenizer see it. *)
Definition is_space (c : ascii) : bool :=
  let n := nat_of_ascii c in
  ((9 <=? n)%nat && (n <=? 13)%nat) || ((28 <=? n)%nat && (n <=? 32)%nat).

Definition is_alpha (c : ascii) : bool :=
  let n := nat_of_ascii c in
  ((65 <=? n)%nat && (n <=? 90)%nat) || ((97 <=? n)%nat && (n <=? 122)%nat).

Definition lower (c : ascii) : ascii :=
  let n := nat_of_ascii c in
  if ((65 <=? n)%nat && (n <=? 90)%nat) then ascii_of_nat (n + 32) else c.

Definition snoc (s : string) (c : ascii) : string := s ++ String c "".

Definition is_empty (s : string) : bool :=
  match s with
  | EmptyString => true
  | String _ _ => false
  end.

Fixpoint lstrip (s : string) : string :=
  match s with
  | EmptyString => ""
  | String c s' => if is_space c then lstrip s' else s
  end.

Fixpoint rstrip (s : string) : string :=
  match s with
  | EmptyString => ""
  | String c s' =>
      let r := rstrip s' in
      if is_space c && is_empty r then "" else String c r
  end.

Definition strip (s : string) : string := rstrip (lstrip s).

Fixpoint last_char (s : string) : option ascii :=
  match s with
  | EmptyString => None
  | String c EmptyString => Some c
  | String _ s' => last_char s'
  end.

(** *** Tokens of [html.parser] *)

Definition attr : Type := (string * option string)%type.

Inductive token : Type :=
| StartTag (name : string) (attrs : list attr) (self_closing : bool)
| EndTag (name : string)
| Data (text : string).

Inductive lex_state : Type :=
| LData
| LTagOpen
| LEndOpen
| LEndName (name : string)
| LEndRest (name : string)
| LStartName (name : string)
| LBeforeAttr (name : string) (attrs : list attr)
| LAttrName (name : string) (attrs : list attr) (key : string)
| LAfterAttrName (name : string) (attrs : list attr) (key : string)
| LAttrValue (name : string) (attrs : list attr) (key : string)
| LQuoted (quote : ascii) (name : string) (attrs : list attr) (key val : string)
| LUnquoted (name : string) (attrs : list attr) (key val : string)
| LSlash (name : string) (attrs : list attr).

Record lexer : Type := mkLexer {
  state : lex_state;
  data : string;          (* character data not yet handed out *)
  raw : string;           (* the text of the tag being read *)
  out : list token        (* tokens, newest first *)
}.

Definition flush_data (d : string) (ts : list token) : list token :=
  if is_empty d then ts else Data d :: ts.

Definition emit (t : token) (l : lexer) : lexer :=
  {| state := LData; data := ""; raw := ""; out := t :: flush_data (data l) (out l) |}.

Definition goto (st : lex_state) (c : ascii) (l : lexer) : lexer :=
  {| state := st; data := data l; raw := snoc (raw l) c; out := out l |}.

(** The characters read since ["<"] turn out to be character data. *)
Definition as_data (c : ascii) (l : lexer) : lexer :=
  {| state := LData; data := snoc (data l ++ raw l) c; raw := ""; out := out l |}.

Definition before_attr (name : string) (attrs : list attr) (c : ascii)
  (l : lexer) : lexer :=
  if is_space c then goto (LBeforeAttr name attrs) c l
  else if Ascii.eqb c "/" then goto (LSlash name attrs) c l
  else if Ascii.eqb c ">" then emit (StartTag name attrs false) l
  else goto (LAttrName name attrs (String (lower c) "")) c l.

Definition lex_step (l : lexer) (c : ascii) : lexer :=
  match state l with
  | LData =>
      if Ascii.eqb c "<"
      then {| state := LTagOpen; data := data l; raw := "<"; out := out l |}
      else {| state := LData; data := snoc (data l) c; raw := ""; out := out l |}
  | LTagOpen =>
      if is_alpha c then goto (LStartName (String (lower c) "")) c l
      else if Ascii.eqb c "/" then goto LEndOpen c l
      else if Ascii.eqb c "<"
      then {| state := LTagOpen; data := data l ++ raw l; raw := "<"; out := out l |}
      else as_data c l
  | LEndOpen =>
      if is_alpha c then goto (LEndName (String (lower c) "")) c l
      else as_data c l
  | LEndName name =>
      if Ascii.eqb c ">" then emit (EndTag name) l
      else if is_space c then goto (LEndRest name) c l
      else goto (LEndName (snoc name (lower c))) c l
  | LEndRest name =>
      if Ascii.eqb c ">" then emit (EndTag name) l
      else goto (LEndRest name) c l
  | LStartName name =>
      if is_space c then goto (LBeforeAttr name []) c l
      else if Ascii.eqb c "/" then goto (LSlash name []) c l
      else if Ascii.eqb c ">" then emit (StartTag name [] false) l
      else goto (LStartName (snoc name (lower c))) c l
  | LBeforeAttr name attrs => before_attr name attrs c l
  | LAttrName name attrs key =>
      if is_space c then goto (LAfterAttrName name attrs key) c l
      else if Ascii.eqb c "=" then goto (LAttrValue name attrs key) c l
      else if Ascii.eqb c "/" then goto (LSlash name (attrs ++ [(key, None)])) c l
      else if Ascii.eqb c ">"
      then emit (StartTag name (attrs ++ [(key, None)]) false) l
      else goto (LAttrName name attrs (snoc key (lower c))) c l
  | LAfterAttrName name attrs key =>
      if is_space c then goto (LAfterAttrName name attrs key) c l
      else if Ascii.eqb c "=" then goto (LAttrValue name attrs key) c l
      else before_attr name (attrs ++ [(key, None)]) c l
  | LAttrValue name attrs key =>
      if is_space c || Ascii.eqb c "=" then goto (LAttrValue name attrs key) c l
      else if Ascii.eqb c dquote || Ascii.eqb c "'"
      then goto (LQuoted c name attrs key "") c l
      else if Ascii.eqb c ">"
      then emit (StartTag name (attrs ++ [(key, Some "")]) false) l
      else goto (LUnquoted name attrs key (String c "")) c l
  | LQuoted q name attrs key val =>
      if Ascii.eqb c q then goto (LBeforeAttr name (attrs ++ [(key, Some val)])) c l
      else goto (LQuoted q name attrs key (snoc val c)) c l
  | LUnquoted name attrs key val =>
      if is_space c then goto (LBeforeAttr name (attrs ++ [(key, Some val)])) c l
      else if Ascii.eqb c ">"
      then emit (StartTag name (attrs ++ [(key, Some val)]) false) l
      else goto (LUnquoted name attrs key (snoc val c)) c l
  | LSlash name attrs =>
      if Ascii.eqb c ">" then emit (StartTag name attrs true) l
      else before_attr name attrs c l
  end.

Fixpoint lex (l : lexer) (s : string) : lexer :=
  match s with
  | EmptyString => l
  | String c s' => lex (lex_step l c) s'
  end.

(** [feed] then [close]: a tag that never ends is character data. *)
Definition tokenize (markup : string) : list token :=
  let l := lex {| state := LData; data := ""; raw := ""; out := [] |} markup in
  rev (flush_data (data l ++ raw l) (out l)).

(** *** The tree *)

Inductive node : Type :=
| NavigableString (text : string)
| Tag (name : string) (attrs : list attr) (contents : list node).

(** An element that is still open: its children so far, newest first. *)
Record frame : Type := mkFrame {
  f_name : string;
  f_attrs : list attr;
  f_children : list node
}.

(** The open elements, innermost first, and the children of the document. *)
Definition builder : Type := (list frame * list node)%type.

Definition add_child (n : node) (b : builder) : builder :=
  match b with
  | (f :: fs, top) => (mkFrame (f_name f) (f_attrs f) (n :: f_children f) :: fs, top)
  | ([], top) => ([], n :: top)
  end.

Definition add_pending (pending : option node) (children : list node) : list node :=
  match pending with
  | Some n => n :: children
  | None => children
  end.

(** [_popToTag]: close the open elements up to and including the innermost
    one called [name]; [pending] is the element just closed, to be hung
    under the next one. *)
Fixpoint pop_to (name : option string) (pending : option node)
  (fs : list frame) (top : list node) : builder :=
  match fs with
  | [] => ([], add_pending pending top)
  | f :: fs' =>
      let closed := Tag (f_name f) (f_attrs f) (rev (add_pending pending (f_children f))) in
      match name with
      | Some n =>
          if String.eqb (f_name f) n then add_child closed (fs', top)
          else pop_to name (Some closed) fs' top
      | None => pop_to name (Some closed) fs' top
      end
  end.

Definition is_open (name : string) (fs : list frame) : bool :=
  existsb (fun f => String.eqb (f_name f) name) fs.

(** [HTMLTreeBuilder.empty_element_tags] *)
Definition empty_element_tags : list string :=
  ["area"; "base"; "br"; "col"; "embed"; "hr"; "img"; "input"; "keygen";
   "link"; "menuitem"; "meta"; "param"; "source"; "track"; "wbr";
   "basefont"; "bgsound"; "command"; "frame"; "image"; "isindex"; "nextid";
   "spacer"].

Definition mem (s : string) (l : list string) : bool :=
  existsb (String.eqb s) l.

Definition build_step (b : builder) (t : token) : builder :=
  match t with
  | Data text => add_child (NavigableString text) b
  | StartTag name attrs self_closing =>
      if self_closing || mem name empty_element_tags
      then add_child (Tag name attrs []) b
      else (mkFrame name attrs [] :: fst b, snd b)
  | EndTag name =>
      if is_open name (fst b) then pop_to (Some name) None (fst b) (snd b)
      else b
  end.

(** The children of the document, once every open element is closed. *)
Definition parse (markup : string) : list node :=
  let b := fold_left build_step (tokenize markup) ([], []) in
  rev (snd (pop_to None None (fst b) (snd b))).

(** *** [soup.body]: the first [body] element in document order, with
    whether something follows it under its parent *)

Definition is_nil {A : Type} (l : list A) : bool :=
  match l with
  | [] => true
  | _ :: _ => false
  end.

Fixpoint find_in (name : string) (next_sibling : bool) (n : node)
  : option (node * bool) :=
  match n with
  | NavigableString _ => None
  | Tag nm _ contents =>
      if String.eqb nm name then Some (n, next_sibling)
      else
        (fix find_list (cs : list node) : option (node * bool) :=
           match cs with
           | [] => None
           | c :: cs' =>
               match find_in name (negb (is_nil cs')) c with
               | Some r => Some r
               | None => find_list cs'
               end
           end) contents
  end.

Fixpoint find (name : string) (ns : list node) : option (node * bool) :=
  match ns with
  | [] => None
  | n :: ns' =>
      match find_in name (negb (is_nil ns')) n with
      | Some r => Some r
      | None => find name ns'
      end
  end.

(** Every element of the tree has a name that [p] accepts. *)
Fixpoint all_tags (p : string -> bool) (n : node) : bool :=
  match n with
  | NavigableString _ => true
  | Tag name _ contents =>
      p name && (fix all_list (cs : list node) : bool :=
                   match cs with
                   | [] => true
                   | c :: cs' => all_tags p c && all_list cs'
                   end) contents
  end.


(** *** Output *)

(** [EntitySubstitution.substitute_xml], the ["minimal"] formatter. *)
Fixpoint substitute_xml (s : string) : string :=
  match s with
  | EmptyString => ""
  | String c s' =>
      (if Ascii.eqb c "&" then "&amp;"
       else if Ascii.eqb c "<" then "&lt;"
       else if Ascii.eqb c ">" then "&gt;"
       else String c "") ++ substitute_xml s'
  end.

Fixpoint replace_quot (s : string) : string :=
  match s with
  | EmptyString => ""
  | String c s' =>
      (if Ascii.eqb c dquote then "&quot;" else String c "") ++ replace_quot s'
  end.

Definition quoted_attribute_value (v : string) : string :=
  if contains_char dquote v then
    if contains_char "'" v then String dquote (replace_quot v) ++ String dquote ""
    else "'" ++ v ++ "'"
  else String dquote v ++ String dquote "".

Definition decode_attr (a : attr) : string :=
  match a with
  | (key, None) => key
  | (key, Some v) => key ++ "=" ++ quoted_attribute_value (substitute_xml v)
  end.

Fixpoint attribute_string (attrs : list attr) : string :=
  match attrs with
  | [] => ""
  | a :: attrs' => " " ++ decode_attr a ++ attribute_string attrs'
  end.

(** [HTMLTreeBuilder.preserve_whitespace_tags] *)
Definition preserve_whitespace_tags : list string := ["pre"; "textarea"].

Definition indent_of (indent_level : option nat) : string :=
  match indent_level with
  | Some n => spaces (n - 1)
  | None => ""
  end.

Definition is_some {A : Type} (o : option A) : bool :=
  match o with
  | Some _ => true
  | None => false
  end.

(** [Tag.decode(indent_level, formatter="minimal")], with
    [Tag.decode_contents] as the inner loop. *)
Fixpoint decode (indent_level : option nat) (next_sibling : bool) (n : node)
  : string :=
  match n with
  | NavigableString text => substitute_xml text
  | Tag name attrs contents =>
      let is_empty_element := mem name empty_element_tags && is_nil contents in
      let close := if is_empty_element then "/" else "" in
      let closeTag := if is_empty_element then "" else "</" ++ name ++ ">" in
      let preserve_whitespace := mem name preserve_whitespace_tags in
      let pretty_print := is_some indent_level && negb preserve_whitespace in
      let indent_space := indent_of indent_level in
      let indent_contents :=
        if pretty_print then option_map S indent_level else None in
      let inner :=
        (fix decode_contents (cs : list node) : string :=
           match cs with
           | [] => ""
           | c :: cs' =>
               match c with
               | NavigableString text =>
                   let text := substitute_xml text in
                   let text :=
                     if is_some indent_contents && negb preserve_whitespace
                     then strip text else text in
                   if is_empty text then ""
                   else if is_some indent_contents && negb preserve_whitespace
                        then indent_of indent_contents ++ text ++ nl
                        else text
               | Tag _ _ _ => decode indent_contents (negb (is_nil cs')) c
               end ++ decode_contents cs'
           end) contents in
      indent_space ++ "<" ++ name ++ attribute_string attrs ++ close ++ ">"
      ++ (if pretty_print then nl else "")
      ++ inner
      ++ (if pretty_print && negb (is_empty inner)
             && negb (match last_char inner with
                      | Some c => is_newline c
                      | None => false
                      end)
          then nl else "")
      ++ (if pretty_print && negb is_empty_element then indent_space else "")
      ++ closeTag
      ++ (if is_some indent_level && negb is_empty_element && next_sibling
          then nl else "")
  end.

End Bs4.

(** Modelled from the spec: the lenient markup parser and the indented
    serializer of section 4.2, which the plugin takes from the third-party
    library [bs4] (with Python's [html.parser]); neither is under src/.
    The model covers start tags, end tags, attributes and character data,
    laid out by [prettify] with one line per tag and per string; comments,
    declarations, character references and the raw text of [script] and
    [style] are outside it. A markup value that is not a string is refused
    with [TypeError]. *)
Definition html_parser : MarkupLibrary := {|
  soup := list Bs4.node;
  element := (Bs4.node * bool)%type;
  BeautifulSoup := fun markup =>
    match markup with
    | VStr s => Return (Bs4.parse s)
    | _ => Raise TypeError
    end;
  soup_body := Bs4.find "body";
  prettify := fun e => Bs4.decode (Some 1%nat) (snd e) (fst e)
|}.

(** ** The event kinds *)

(** Modelled from the spec: the [kind] of a TimestampedEvent (section 3),
    "enumeration {CREATION, LAST_MODIFIED}". *)
Inductive kind : Type :=
| CREATION
| LAST_MODIFIED.

(** The kind a time description stands for: a creation time is CREATION, a
    content modification time is LAST_MODIFIED, a last used time is neither. *)
Definition kind_of (d : time_description) : option kind :=
  match d with
  | TIME_DESCRIPTION_CREATION => Some CREATION
  | TIME_DESCRIPTION_MODIFICATION => Some LAST_MODIFIED
  | TIME_DESCRIPTION_LAST_USED => None
  end.

(** ** Lines of a serialized document *)

(** [unlines [l1; ...; ln]] is [l1 ++ nl ++ ... ++ nl ++ ln]: the lines of a
    text, the last one without its line break. *)
Fixpoint unlines (ls : list string) : string :=
  match ls with
  | [] => ""
  | [l] => l
  | l :: ls' => l ++ nl ++ unlines ls'
  end.

(** [tag_marker closing name rest] is the text of a tag as it is serialized:
    ["<"], ["/"] for a closing tag, the name, the rest (attributes) and [">"]. *)
Definition tag_marker (closing : bool) (name rest : string) : string :=
  "<" ++ (if closing then "/" else "") ++ name ++ rest ++ ">".

Definition has_prefix (p s : string) : bool :=
  match prefix_drop p s with
  | Some _ => true
  | None => false
  end.

(** A tag name begins with one of the names of the pattern. *)
Definition begins_with_listed (name : string) : bool :=
  existsb (fun p => has_prefix p name) tag_names.

(** What [\n?] leaves of the text that follows a match. *)
Definition eat_newline (tail : string) : string :=
  match tail with
  | EmptyString => ""
  | String c t => if is_newline c then t else tail
  end.

(** The text is empty or begins a new line. *)
Definition at_line_end (tail : string) : bool :=
  match tail with
  | EmptyString => true
  | String c _ => is_newline c
  end.

(** The text is made of complete lines: empty, or ending in a line break. *)
Definition complete_lines (s : string) : bool :=
  match Bs4.last_char s with
  | None => true
  | Some c => is_newline c
  end.

(** A pattern that never consumes a line break. *)
Fixpoint nl_free (r : regex) : bool :=
  match r with
  | Chr c => negb (is_newline c)
  | Lit w => negb (contains_char newline w)
  | Dot => true
  | Seq r1 r2 => nl_free r1 && nl_free r2
  | Alt r1 r2 => nl_free r1 && nl_free r2
  | Opt r' => nl_free r'
  | StarDot => true
  end.

(** Two continuations agree line by line: what [k] answers on a line
    followed by [b] is what [k'] answers on the line alone, with [b] put
    back behind it. *)
Definition local (b : string) (k k' : string -> option string) : Prop :=
  forall y, contains_char newline y = false ->
    k (y ++ nl ++ b) = option_map (fun r => r ++ b) (k' (y ++ nl)).

(** The part of the pattern after the tag name, [.*>\n?], and its end. *)
Definition after_gt (s : string) : option string :=
  rmatch (Seq (Chr ">") (Opt (Chr newline))) s Some.

Definition after_name (s : string) : option string :=
  star_dot s after_gt.



(** The name is one of the listed names. *)
Definition listed (name : string) : bool :=
  existsb (String.eqb name) tag_names.

(** A line of a serialized document: a tag on a line of its own, after its
    indentation, or a line of text. *)
Inductive line : Type :=
| TagLine (indent : nat) (closing : bool) (name rest : string)
| TextLine (text : string).

Definition render_line (l : line) : string :=
  match l with
  | TagLine i closing name rest => spaces i ++ tag_marker closing name rest
  | TextLine text => text
  end.

(** A line of a document with listed tags only, each on one line; text
    holds no ["<"]. *)
Definition allowed_line (l : line) : bool :=
  match l with
  | TagLine _ _ name rest => listed name && negb (contains_char newline rest)
  | TextLine text =>
      negb (contains_char "<" text) && negb (contains_char newline text)
  end.

(** What the substitution leaves of such lines: the indentation of a tag
    line, and a text line with its line break. *)
Fixpoint residue (ls : list line) : string :=
  match ls with
  | [] => ""
  | TagLine i _ _ _ :: ls' => spaces i ++ residue ls'
  | TextLine text :: ls' =>
      match ls' with
      | [] => text
      | _ :: _ => text ++ nl ++ residue ls'
      end
  end.

(** The event data of a row whose markup gave [text], and its two events. *)
Definition event_data_of (row : Row) (text : string)
  : MacNotesZhtmlstringEventData :=
  {| title := _GetRowValue row "title";
     note_text := VStr text;
     zhtmlstring := _GetRowValue row "zhtmlstring" |}.

Definition create_event_of (row : Row) : DateTimeValuesEvent :=
  mkDateTimeValuesEvent (mkCocoaTime (_GetRowValue row "timestamp"))
                        TIME_DESCRIPTION_CREATION.

Definition modified_event_of (row : Row) : DateTimeValuesEvent :=
  mkDateTimeValuesEvent (mkCocoaTime (_GetRowValue row "last_modified_time"))
                        TIME_DESCRIPTION_LAST_USED.


(** ** Rows and markup used as examples *)

(** The markup of the end-to-end example of the specification. *)
Definition milk_markup : string := "<body><p>Milk</p></body>".

(** A [div] whose attribute value runs over two lines. *)
Definition split_tag_markup : string :=
  "<body><div title='a" ++ nl ++ "b'>x</div></body>".




Definition row_without_markup : Row :=
  mkRow VNone (VFloat 0%float) VNone (VStr "Shopping").

(** Created a day after the reference date, edited at 0.0. *)
Definition row_edited_at_zero : Row :=
  mkRow (VStr milk_markup) (VFloat 86400%float) (VFloat 0%float)
        (VStr "Shopping").

(** Created at 0.0, edited a day later. *)
Definition row_edited : Row :=
  mkRow (VStr milk_markup) (VFloat 0%float) (VFloat 86400%float)
        (VStr "Shopping").

(** The serialized body of [milk_markup], line by line. *)
Definition milk_lines : list line :=
  [TagLine 0 false "body" ""; TagLine 1 false "p" ""; TextLine "  Milk";
   TagLine 1 true "p" ""; TagLine 0 true "body" ""].

(** The first line of the text holds no [">"]. *)
Fixpoint line_without_gt (s : string) : bool :=
  match s with
  | EmptyString => true
  | String c s' =>
      if is_newline c then true
      else negb (Ascii.eqb c ">") && line_without_gt s'
  end.

(** [subseq a b]: [a] is [b] with some characters left out. *)
Inductive subseq : string -> string -> Prop :=
| subseq_nil : subseq "" ""
| subseq_drop (c : ascii) (a b : string) : subseq a b -> subseq a (String c b)
| subseq_keep (c : ascii) (a b : string) :
    subseq a b -> subseq (String c a) (String c b).

(** The lines of [ls], each with its line break. *)
Fixpoint with_breaks (ls : list string) : string :=
  match ls with
  | [] => ""
  | l :: ls' => l ++ nl ++ with_breaks ls'
  end.

(** What the substitution makes of each line of [ls], taken alone. *)
Fixpoint line_by_line (ls : list string) : string :=
  match ls with
  | [] => ""
  | l :: ls' => re_sub tag_pattern (l ++ nl) ++ line_by_line ls'
  end.

(** ** Strings *)

Lemma app_assoc_s (a b c : string) : (a ++ b) ++ c = a ++ (b ++ c).
Proof. induction a as [|x a IH]; simpl; [reflexivity | now rewrite IH]. Qed.

Lemma app_nil_r_s (a : string) : a ++ "" = a.
Proof. induction a as [|x a IH]; simpl; [reflexivity | now rewrite IH]. Qed.

Lemma length_app_s (a b : string) :
  String.length (a ++ b) = (String.length a + String.length b)%nat.
Proof. induction a as [|x a IH]; simpl; [reflexivity | now rewrite IH]. Qed.

Lemma contains_char_app (c : ascii) (a b : string) :
  contains_char c (a ++ b) = contains_char c a || contains_char c b.
Proof.
  induction a as [|x a IH]; simpl; [reflexivity|].
  rewrite IH. now rewrite orb_assoc.
Qed.

Lemma contains_char_spaces (c : ascii) (n : nat) :
  Ascii.eqb " " c = false -> contains_char c (spaces n) = false.
Proof.
  intros H. induction n as [|n IH]; cbn [spaces contains_char]; [reflexivity|].
  now rewrite H, IH.
Qed.

Lemma prefix_drop_sound (p s r : string) :
  prefix_drop p s = Some r -> s = p ++ r.
Proof.
  revert s. induction p as [|a p IH]; simpl; intros s H.
  - now inversion H.
  - destruct s as [|b s]; [discriminate|].
    destruct (Ascii.eqb a b) eqn:E; [|discriminate].
    apply Ascii.eqb_eq in E. subst b. f_equal. now apply IH.
Qed.

Lemma prefix_drop_complete (p r : string) : prefix_drop p (p ++ r) = Some r.
Proof.
  induction p as [|a p IH]; simpl; [reflexivity|].
  now rewrite Ascii.eqb_refl.
Qed.

Lemma prefix_drop_app (p s r t : string) :
  prefix_drop p s = Some r -> prefix_drop p (s ++ t) = Some (r ++ t).
Proof.
  intros H. apply prefix_drop_sound in H. subst s.
  rewrite app_assoc_s. apply prefix_drop_complete.
Qed.

(** A word that lacks the character [c] cannot reach past a [c] of the text:
    it is a prefix of what stands before it. *)
Lemma prefix_drop_before (c : ascii) (p x t y : string) :
  contains_char c p = false ->
  prefix_drop p (x ++ String c t) = Some y ->
  exists x', prefix_drop p x = Some x' /\ y = x' ++ String c t.
Proof.
  revert x. induction p as [|a p IH]; simpl; intros x Hp H.
  - inversion H. now exists x.
  - apply orb_false_iff in Hp. destruct Hp as [Hac Hp].
    destruct x as [|b x]; simpl in H.
    + destruct (Ascii.eqb a c) eqn:E; [discriminate|discriminate].
    + destruct (Ascii.eqb a b) eqn:E; [|discriminate].
      simpl. now apply IH.
Qed.

Lemma contains_here (t b : string) : contains t (t ++ b) = true.
Proof.
  destruct t as [|c t]; [now destruct b|].
  cbn [contains append]. change (String c (t ++ b)) with (String c t ++ b).
  now rewrite prefix_drop_complete.
Qed.

Lemma contains_app_l (t a b : string) :
  contains t b = true -> contains t (a ++ b) = true.
Proof.
  intros H. induction a as [|c a IH]; [exact H|].
  cbn [append contains]. rewrite IH.
  now destruct (prefix_drop t (String c (a ++ b))).
Qed.

Lemma contains_middle (t a b : string) : contains t (a ++ t ++ b) = true.
Proof. apply contains_app_l, contains_here. Qed.

(** ** The pattern, piece by piece *)

Lemma after_gt_end (tail : string) :
  at_line_end tail = true -> after_gt (String ">" tail) = Some (eat_newline tail).
Proof.
  intros H. destruct tail as [|c t]; [reflexivity|].
  simpl in H. unfold after_gt. cbn. unfold is_newline in *. now rewrite H.
Qed.

Lemma after_gt_line_end (tail : string) :
  at_line_end tail = true -> after_gt tail = None.
Proof.
  intros H. destruct tail as [|c t]; [reflexivity|].
  simpl in H. unfold is_newline in H. apply Ascii.eqb_eq in H. now subst c.
Qed.

Lemma star_dot_line_end {A : Type} (tail : string) (k : string -> option A) :
  at_line_end tail = true -> star_dot tail k = k tail.
Proof.
  intros H. destruct tail as [|c t]; [reflexivity|].
  simpl in H. simpl. now rewrite H.
Qed.

(** [.*>\n?] on the rest of a line that ends in [">"]: the match runs to that
    [">"] and takes the line break. *)
Lemma after_name_line (x tail : string) :
  contains_char newline x = false ->
  at_line_end tail = true ->
  after_name (x ++ String ">" tail) = Some (eat_newline tail).
Proof.
  intros Hx Ht. unfold after_name.
  induction x as [|a x IH].
  - cbn [append star_dot]. change (is_newline ">") with false. cbv iota.
    rewrite (star_dot_line_end tail after_gt Ht).
    rewrite (after_gt_line_end tail Ht). now apply after_gt_end.
  - cbn [contains_char] in Hx. apply orb_false_iff in Hx. destruct Hx as [Ha Hx].
    cbn [append star_dot]. unfold is_newline at 1. rewrite Ha.
    now rewrite (IH Hx).
Qed.

Lemma tag_names_plain (c : ascii) :
  Bs4.is_alpha c = false ->
  forall q, In q tag_names -> contains_char c q = false.
Proof.
  intros Hc q Hq.
  assert (Hl : forall l, Bs4.is_alpha l = true -> Ascii.eqb l c = false).
  { intros l Hl. destruct (Ascii.eqb l c) eqn:E; [|reflexivity].
    apply Ascii.eqb_eq in E. subst l. congruence. }
  unfold tag_names in Hq. cbn [In] in Hq.
  repeat (destruct Hq as [Hq | Hq];
          [subst q; cbn [contains_char];
           repeat (rewrite Hl by reflexivity); reflexivity |]).
  contradiction.
Qed.

Lemma has_prefix_app (p s t : string) :
  has_prefix p s = true -> has_prefix p (s ++ t) = true.
Proof.
  unfold has_prefix. destruct (prefix_drop p s) eqn:E; [|discriminate].
  intros _. now rewrite (prefix_drop_app _ _ _ t E).
Qed.

Lemma begins_with_listed_app (name t : string) :
  begins_with_listed name = true -> begins_with_listed (name ++ t) = true.
Proof.
  unfold begins_with_listed. rewrite !existsb_exists.
  intros [p [Hp H]]. exists p. split; [exact Hp | now apply has_prefix_app].
Qed.

(** A name that begins with a listed one does not begin with ["/"]. *)
Lemma begins_with_listed_no_slash (name t : string) (k : string -> option string) :
  begins_with_listed name = true ->
  rmatch (Chr "/") (name ++ t) k = None.
Proof.
  intros H. destruct name as [|c name]; [discriminate|].
  cbn [append rmatch]. destruct (Ascii.eqb c "/") eqn:E; [|reflexivity].
  apply Ascii.eqb_eq in E. subst c. discriminate.
Qed.

(** One alternative of the pattern: either the word is a prefix of the text,
    and [Hin] tells what the continuation answers, or the next one is tried. *)
Ltac take_alternative Hin q s :=
  let E := fresh "E" in
  destruct (prefix_drop q s) eqn:E;
  [rewrite (Hin q ltac:(cbn; tauto) _ E); reflexivity|].

(** The alternatives: the first listed name that is a prefix is taken, and
    the continuation decides. *)
Lemma alternatives_some (s r : string) (k : string -> option string) :
  (forall q y, In q tag_names -> prefix_drop q s = Some y -> k y = Some r) ->
  begins_with_listed s = true ->
  rmatch tag_alternatives s k = Some r.
Proof.
  intros Hk Hex. unfold begins_with_listed, has_prefix, tag_names in Hex.
  cbn [existsb] in Hex. unfold tag_alternatives. cbn [rmatch].
  assert (Hin : forall q, In q tag_names ->
                 forall y, prefix_drop q s = Some y -> k y = Some r)
    by (intros q Hq y; now apply Hk).
  unfold tag_names in Hin.
  take_alternative Hin "div" s. take_alternative Hin "body" s.
  take_alternative Hin "span" s. take_alternative Hin "b" s.
  take_alternative Hin "table" s. take_alternative Hin "tr" s.
  take_alternative Hin "td" s. take_alternative Hin "tbody" s.
  take_alternative Hin "p" s.
  discriminate.
Qed.


Lemma tag_marker_app (closing : bool) (name rest tail : string) :
  tag_marker closing name rest ++ tail
  = String "<" ((if closing then "/" else "") ++ (name ++ rest) ++ String ">" tail).
Proof.
  unfold tag_marker. cbn [append].
  rewrite !app_assoc_s. cbn [append]. reflexivity.
Qed.

Lemma rmatch_opt {A : Type} (r : regex) (s : string) (k : string -> option A) :
  rmatch (Opt r) s k
  = match rmatch r s k with
    | Some x => Some x
    | None => k s
    end.
Proof. reflexivity. Qed.

Lemma tag_pattern_unfold (x : string) :
  re_match tag_pattern (String "<" x)
  = rmatch (Opt (Chr "/")) x (fun s => rmatch tag_alternatives s after_name).
Proof. reflexivity. Qed.

(** The pattern matches the serialized tag of a name that begins with a
    listed one, to the end of its line. *)
Lemma re_match_marker (closing : bool) (name rest tail : string) :
  begins_with_listed name = true ->
  contains_char newline (name ++ rest) = false ->
  at_line_end tail = true ->
  re_match tag_pattern (tag_marker closing name rest ++ tail)
  = Some (eat_newline tail).
Proof.
  intros Hb Hn Ht. rewrite tag_marker_app, tag_pattern_unfold.
  assert (Hk : rmatch tag_alternatives ((name ++ rest) ++ String ">" tail) after_name
               = Some (eat_newline tail)).
  { apply alternatives_some.
    - intros q y Hq Hy.
      assert (Hgt : contains_char ">" q = false)
        by (apply tag_names_plain; [reflexivity | exact Hq]).
      destruct (prefix_drop_before ">" q (name ++ rest) tail y Hgt Hy)
        as [x' [Hx' ->]].
      apply after_name_line; [|exact Ht].
      apply prefix_drop_sound in Hx'. rewrite Hx', contains_char_app in Hn.
      now apply orb_false_iff in Hn.
    - rewrite app_assoc_s. now apply begins_with_listed_app. }
  rewrite rmatch_opt. destruct closing; cbn [append].
  - cbn [rmatch]. change (Ascii.eqb "/" "/") with true. cbv iota.
    now rewrite Hk.
  - rewrite (app_assoc_s name) at 1.
    rewrite (begins_with_listed_no_slash name _ _ Hb). exact Hk.
Qed.

Lemma re_match_not_lt (s : string) :
  has_prefix "<" s = false -> re_match tag_pattern s = None.
Proof.
  destruct s as [|c s]; [reflexivity|].
  unfold has_prefix. cbn [prefix_drop]. rewrite Ascii.eqb_sym.
  unfold re_match, tag_pattern. cbn [rmatch].
  now destruct (Ascii.eqb c "<").
Qed.



(** ** Matches do not look past their line *)

Lemma local_last (b : string) :
  local b (fun s => rmatch (Opt (Chr newline)) s Some)
          (fun s => rmatch (Opt (Chr newline)) s Some).
Proof.
  intros y Hy. destruct y as [|a y]; [reflexivity|].
  cbn [contains_char] in Hy. apply orb_false_iff in Hy. destruct Hy as [Ha _].
  cbn [append rmatch]. rewrite Ha. cbn [option_map append].
  now rewrite !app_assoc_s.
Qed.

Lemma star_dot_local (b : string) (k k' : string -> option string) :
  local b k k' -> local b (fun s => star_dot s k) (fun s => star_dot s k').
Proof.
  intros Hloc y Hy. induction y as [|a y IH].
  - cbn [append nl star_dot]. change (is_newline newline) with true. cbv iota.
    exact (Hloc "" eq_refl).
  - pose proof (Hloc (String a y) Hy) as Hay.
    cbn [contains_char] in Hy. apply orb_false_iff in Hy. destruct Hy as [Ha Hy].
    cbn [append star_dot]. unfold is_newline. rewrite Ha.
    rewrite (IH Hy).
    destruct (star_dot (y ++ nl) k'); [reflexivity|].
    cbn [option_map]. exact Hay.
Qed.

Lemma rmatch_local (b : string) (r : regex) :
  nl_free r = true ->
  forall k k', local b k k' ->
    local b (fun s => rmatch r s k) (fun s => rmatch r s k').
Proof.
  induction r as [c|w| |r1 IH1 r2 IH2|r1 IH1 r2 IH2|r IH| ];
    cbn [nl_free]; intros Hr k k' Hloc.
  - intros y Hy. apply negb_true_iff in Hr. unfold is_newline in Hr.
    destruct y as [|a y].
    + cbn [append nl rmatch]. rewrite Ascii.eqb_sym, Hr. reflexivity.
    + cbn [contains_char] in Hy. apply orb_false_iff in Hy.
      cbn [append rmatch]. destruct (Ascii.eqb a c); [|reflexivity].
      now apply Hloc.
  - intros y Hy. apply negb_true_iff in Hr. cbn [rmatch].
    destruct (prefix_drop w (y ++ nl)) as [z|] eqn:E.
    + destruct (prefix_drop_before newline w y "" z Hr E) as [x' [Hx' ->]].
      cbn [nl append]. change (String newline b) with (nl ++ b).
      rewrite (prefix_drop_app w y x' (nl ++ b) Hx').
      apply Hloc. apply prefix_drop_sound in Hx'.
      rewrite Hx', contains_char_app in Hy. now apply orb_false_iff in Hy.
    + destruct (prefix_drop w (y ++ nl ++ b)) as [z|] eqn:E'; [|reflexivity].
      destruct (prefix_drop_before newline w y b z Hr E') as [x' [Hx' _]].
      rewrite (prefix_drop_app w y x' nl Hx') in E. discriminate.
  - intros y Hy. destruct y as [|a y]; [reflexivity|].
    cbn [contains_char] in Hy. apply orb_false_iff in Hy.
    cbn [append rmatch]. unfold is_newline. destruct Hy as [-> Hy].
    now apply Hloc.
  - apply andb_true_iff in Hr. destruct Hr as [H1 H2].
    cbn [rmatch]. apply (IH1 H1). now apply IH2.
  - apply andb_true_iff in Hr. destruct Hr as [H1 H2].
    intros y Hy. cbn [rmatch].
    rewrite (IH1 H1 k k' Hloc y Hy), (IH2 H2 k k' Hloc y Hy).
    now destruct (rmatch r1 (y ++ nl) k').
  - intros y Hy. cbn [rmatch].
    rewrite (IH Hr k k' Hloc y Hy), (Hloc y Hy).
    now destruct (rmatch r (y ++ nl) k').
  - now apply star_dot_local.
Qed.

(** The pattern, tried on a line that is followed by [b]. *)
Lemma tag_pattern_local (b y : string) :
  contains_char newline y = false ->
  re_match tag_pattern (y ++ nl ++ b)
  = option_map (fun r => r ++ b) (re_match tag_pattern (y ++ nl)).
Proof.
  pose proof (local_last b) as H5.
  pose proof (rmatch_local b (Chr ">") eq_refl _ _ H5) as H4.
  pose proof (rmatch_local b StarDot eq_refl _ _ H4) as H3.
  pose proof (rmatch_local b tag_alternatives eq_refl _ _ H3) as H2.
  pose proof (rmatch_local b (Opt (Chr "/")) eq_refl _ _ H2) as H1.
  pose proof (rmatch_local b (Chr "<") eq_refl _ _ H1) as H0.
  exact (H0 y).
Qed.

Lemma first_line (a : string) :
  a <> "" -> complete_lines a = true ->
  exists y a', a = y ++ nl ++ a' /\ contains_char newline y = false
               /\ complete_lines a' = true.
Proof.
  induction a as [|c a IH]; [congruence|]. intros _ H.
  destruct (is_newline c) eqn:Ec.
  - exists "", a. unfold is_newline in Ec. apply Ascii.eqb_eq in Ec. subst c.
    repeat split. destruct a as [|d a]; [reflexivity | exact H].
  - destruct a as [|d a].
    + unfold complete_lines in H. cbn in H. congruence.
    + destruct IH as [y [a' [E [Hy Ha']]]]; [discriminate | exact H |].
      exists (String c y), a'. rewrite E. repeat split; [|exact Ha'].
      cbn [contains_char]. unfold is_newline in Ec. now rewrite Ec, Hy.
Qed.

(** The same, for a text of several complete lines. *)
Lemma tag_pattern_lines (a b : string) :
  a <> "" -> complete_lines a = true ->
  re_match tag_pattern (a ++ b)
  = option_map (fun r => r ++ b) (re_match tag_pattern a).
Proof.
  intros Hne Hc. destruct (first_line a Hne Hc) as [y [a' [-> [Hy _]]]].
  rewrite !app_assoc_s.
  rewrite (tag_pattern_local (a' ++ b) y Hy), (tag_pattern_local a' y Hy).
  destruct (re_match tag_pattern (y ++ nl)); cbn [option_map]; [|reflexivity].
  now rewrite app_assoc_s.
Qed.

(** ** The substitution *)

Lemma sub_scan_0 (r : regex) (c : ascii) (s : string) :
  sub_scan r 0 (String c s)
  = match re_match r (String c s) with
    | Some rest =>
        if Nat.eqb (String.length (String c s)) (String.length rest)
        then String c (sub_scan r 0 s)
        else sub_scan r (String.length s - String.length rest) s
    | None => String c (sub_scan r 0 s)
    end.
Proof. reflexivity. Qed.

Lemma sub_scan_skip (r : regex) (a b : string) :
  sub_scan r (String.length a) (a ++ b) = sub_scan r 0 b.
Proof. induction a as [|c a IH]; [reflexivity | exact IH]. Qed.

(** A match that is not empty is dropped, and the scan goes on behind it. *)
Lemma sub_scan_match (r : regex) (s m rest : string) :
  re_match r s = Some rest -> s = m ++ rest -> m <> "" ->
  sub_scan r 0 s = sub_scan r 0 rest.
Proof.
  intros Hm Hs Hne. destruct m as [|c m]; [congruence|].
  subst s. cbn [append]. rewrite sub_scan_0.
  change (String c (m ++ rest)) with (String c m ++ rest). rewrite Hm.
  cbn [append String.length]. rewrite length_app_s.
  replace (Nat.eqb (S (String.length m + String.length rest)) (String.length rest))
    with false by (symmetry; apply Nat.eqb_neq; lia).
  replace (String.length m + String.length rest - String.length rest)%nat
    with (String.length m) by lia.
  apply sub_scan_skip.
Qed.

(** Text without ["<"] goes through unchanged. *)
Lemma sub_scan_plain (x s : string) :
  contains_char "<" x = false ->
  sub_scan tag_pattern 0 (x ++ s) = x ++ sub_scan tag_pattern 0 s.
Proof.
  induction x as [|c x IH]; intros H; [reflexivity|].
  cbn [contains_char] in H. apply orb_false_iff in H. destruct H as [Hc Hx].
  cbn [append]. rewrite sub_scan_0, re_match_not_lt.
  - now rewrite (IH Hx).
  - unfold has_prefix. cbn [prefix_drop]. now rewrite Ascii.eqb_sym, Hc.
Qed.

Lemma marker_split (marker tail : string) :
  at_line_end tail = true ->
  exists m, marker ++ tail = (marker ++ m) ++ eat_newline tail.
Proof.
  intros H. destruct tail as [|c t].
  - exists "". now rewrite !app_nil_r_s.
  - cbn in H. exists (String c ""). cbn [eat_newline]. rewrite H.
    now rewrite app_assoc_s.
Qed.

(** The line of a tag whose name begins with a listed one: the indentation
    stays, the tag and its line break go. *)
Lemma sub_scan_stripped (i : nat) (closing : bool) (name rest tail : string) :
  begins_with_listed name = true ->
  contains_char newline (name ++ rest) = false ->
  at_line_end tail = true ->
  sub_scan tag_pattern 0 (spaces i ++ tag_marker closing name rest ++ tail)
  = spaces i ++ sub_scan tag_pattern 0 (eat_newline tail).
Proof.
  intros Hb Hn Ht.
  rewrite sub_scan_plain by (now apply contains_char_spaces).
  f_equal.
  destruct (marker_split (tag_marker closing name rest) tail Ht) as [m Hm].
  apply (sub_scan_match _ _ (tag_marker closing name rest ++ m)).
  - now apply re_match_marker.
  - exact Hm.
  - unfold tag_marker. cbn [append]. discriminate.
Qed.


Lemma complete_lines_tail (c : ascii) (a : string) :
  complete_lines (String c a) = true -> complete_lines a = true.
Proof. destruct a as [|d a]; [reflexivity | exact (fun H => H)]. Qed.

(** Complete lines are rewritten on their own: what follows them does not
    change what becomes of them. *)
Lemma sub_scan_lines (a b : string) :
  complete_lines a = true ->
  forall n, (n <= String.length a)%nat ->
    sub_scan tag_pattern n (a ++ b)
    = sub_scan tag_pattern n a ++ sub_scan tag_pattern 0 b.
Proof.
  induction a as [|c a IH]; intros Hc n Hn.
  - cbn in Hn. now replace n with 0%nat by lia.
  - pose proof (complete_lines_tail c a Hc) as Ha.
    destruct n as [|n].
    + cbn [append]. rewrite !sub_scan_0.
      change (String c (a ++ b)) with (String c a ++ b).
      rewrite (tag_pattern_lines (String c a) b) by (discriminate || exact Hc).
      destruct (re_match tag_pattern (String c a)) as [rest|]; cbn [option_map].
      * cbn [append String.length]. rewrite !length_app_s.
        destruct (Nat.eqb (S (String.length a)) (String.length rest)) eqn:E.
        -- apply Nat.eqb_eq in E.
           replace (Nat.eqb (S (String.length a + String.length b))
                            (String.length rest + String.length b)) with true
             by (symmetry; apply Nat.eqb_eq; lia).
           cbn [append]. now rewrite (IH Ha 0%nat) by lia.
        -- apply Nat.eqb_neq in E.
           replace (Nat.eqb (S (String.length a + String.length b))
                            (String.length rest + String.length b)) with false
             by (symmetry; apply Nat.eqb_neq; lia).
           replace (String.length a + String.length b
                    - (String.length rest + String.length b))%nat
             with (String.length a - String.length rest)%nat by lia.
           apply (IH Ha). lia.
      * cbn [append]. now rewrite (IH Ha 0%nat) by lia.
    + cbn [append sub_scan]. apply (IH Ha). cbn in Hn. lia.
Qed.

Lemma re_sub_lines (a b : string) :
  complete_lines a = true ->
  re_sub tag_pattern (a ++ b) = re_sub tag_pattern a ++ re_sub tag_pattern b.
Proof. intros H. apply sub_scan_lines; [exact H | lia]. Qed.

(** ** Lines of listed tags and text *)

Lemma listed_begins (name : string) :
  listed name = true -> begins_with_listed name = true.
Proof.
  unfold listed, begins_with_listed. rewrite !existsb_exists.
  intros [p [Hp E]]. apply String.eqb_eq in E. subst p.
  exists name. split; [exact Hp|]. unfold has_prefix.
  rewrite <- (app_nil_r_s name) at 2. now rewrite prefix_drop_complete.
Qed.

Lemma listed_one_line (name rest : string) :
  listed name = true ->
  contains_char newline rest = false ->
  contains_char newline (name ++ rest) = false.
Proof.
  intros Hl Hr. rewrite contains_char_app, Hr, orb_false_r.
  unfold listed in Hl. apply existsb_exists in Hl.
  destruct Hl as [p [Hp E]]. apply String.eqb_eq in E. subst p.
  now apply tag_names_plain.
Qed.

Lemma unlines_cons (l : string) (l' : string) (ls : list string) :
  unlines (l :: l' :: ls) = l ++ nl ++ unlines (l' :: ls).
Proof. reflexivity. Qed.

Lemma re_sub_allowed (ls : list line) :
  forallb allowed_line ls = true ->
  re_sub tag_pattern (unlines (map render_line ls)) = residue ls.
Proof.
  unfold re_sub. induction ls as [|l ls IH]; [reflexivity|].
  cbn [forallb]. intros H. apply andb_true_iff in H. destruct H as [Hl Hls].
  specialize (IH Hls).
  destruct l as [i closing name rest | text]; cbn [allowed_line] in Hl;
    apply andb_true_iff in Hl; destruct Hl as [H1 H2];
    apply negb_true_iff in H2.
  - pose proof (listed_begins name H1) as Hb.
    pose proof (listed_one_line name rest H1 H2) as Hn.
    destruct ls as [|l' ls].
    + cbn [map unlines render_line residue].
      rewrite <- (app_nil_r_s (spaces i ++ tag_marker closing name rest)).
      rewrite app_assoc_s.
      now rewrite (sub_scan_stripped i closing name rest "" Hb Hn eq_refl).
    + cbn [map] in *. rewrite unlines_cons. cbn [render_line residue].
      rewrite app_assoc_s.
      rewrite (sub_scan_stripped i closing name rest
                 (nl ++ unlines (render_line l' :: map render_line ls))
                 Hb Hn eq_refl).
      cbn [nl append eat_newline]. change (is_newline newline) with true.
      cbv iota. now rewrite IH.
  - apply negb_true_iff in H1. destruct ls as [|l' ls].
    + cbn [map unlines render_line residue].
      rewrite <- (app_nil_r_s text) at 1.
      rewrite (sub_scan_plain text "" H1). apply app_nil_r_s.
    + cbn [map] in *. rewrite unlines_cons. cbn [render_line residue].
      rewrite <- app_assoc_s.
      rewrite (sub_scan_plain (text ++ nl))
        by (rewrite contains_char_app, H1; reflexivity).
      rewrite IH. now rewrite app_assoc_s.
Qed.

Lemma residue_no_lt (ls : list line) :
  forallb allowed_line ls = true -> contains_char "<" (residue ls) = false.
Proof.
  induction ls as [|l ls IH]; [reflexivity|].
  cbn [forallb]. intros H. apply andb_true_iff in H. destruct H as [Hl Hls].
  specialize (IH Hls). destruct l as [i closing name rest | text].
  - cbn [residue]. rewrite contains_char_app, IH.
    now rewrite contains_char_spaces.
  - cbn [allowed_line] in Hl. apply andb_true_iff in Hl. destruct Hl as [H1 _].
    apply negb_true_iff in H1. cbn [residue]. destruct ls as [|l' ls].
    + exact H1.
    + now rewrite !contains_char_app, H1, IH.
Qed.

Lemma residue_keeps_text (ls : list line) (text : string) :
  In (TextLine text) ls -> contains text (residue ls) = true.
Proof.
  induction ls as [|l ls IH]; [contradiction|].
  intros [E | Hin].
  - subst l. cbn [residue]. destruct ls as [|l' ls].
    + rewrite <- (app_nil_r_s text) at 2. apply contains_here.
    + apply contains_here.
  - specialize (IH Hin). destruct l as [i closing name rest | text'].
    + cbn [residue]. now apply contains_app_l.
    + cbn [residue]. destruct ls as [|l' ls]; [contradiction|].
      rewrite <- app_assoc_s. now apply contains_app_l.
Qed.

(** ** The plugin *)

Section PluginFacts.

Context {bs4 : MarkupLibrary}.

Lemma GetNoteText_body (markup : value) (sp : soup) (b : element) :
  BeautifulSoup markup = Return sp ->
  soup_body sp = Some b ->
  _GetNoteText markup = Return (re_sub tag_pattern (prettify b)).
Proof. intros H1 H2. unfold _GetNoteText. now rewrite H1, H2. Qed.

Lemma Parse_returns (query : string) (row : Row) (m : ParserMediator)
  (text : string) :
  _GetNoteText (_GetRowValue row "zhtmlstring") = Return text ->
  ParseZHTMLSTRINGRow query row m
  = (Return tt,
     (m ++ (create_event_of row, event_data_of row text)
        :: (if truthy (_GetRowValue row "last_modified_time")
            then [(modified_event_of row, event_data_of row text)]
            else []))%list).
Proof.
  intros H. unfold ParseZHTMLSTRINGRow, bind, lift, ProduceEventWithEventData, ret.
  rewrite H. unfold create_event_of, modified_event_of, event_data_of.
  cbn [set_title set_zhtmlstring set_note_text new_event_data
       title note_text zhtmlstring].
  destruct (truthy (_GetRowValue row "last_modified_time")).
  - now rewrite <- app_assoc.
  - reflexivity.
Qed.

Lemma Parse_raises (query : string) (row : Row) (m : ParserMediator)
  (e : exception) :
  _GetNoteText (_GetRowValue row "zhtmlstring") = Raise e ->
  ParseZHTMLSTRINGRow query row m = (Raise e, m).
Proof.
  intros H. unfold ParseZHTMLSTRINGRow, bind, lift. now rewrite H.
Qed.

Lemma row_events_returns (query : string) (row : Row) (text : string) :
  _GetNoteText (_GetRowValue row "zhtmlstring") = Return text ->
  row_events query row
  = (create_event_of row, event_data_of row text)
      :: (if truthy (_GetRowValue row "last_modified_time")
          then [(modified_event_of row, event_data_of row text)]
          else []).
Proof.
  intros H. unfold row_events. now rewrite (Parse_returns query row [] text H).
Qed.

End PluginFacts.

(** ** The properties of the specification *)

Section Claims.

Context {bs4 : MarkupLibrary}.

(** C1: when the parsed markup holds no [body] element, [_GetNoteText] raises
    [AttributeError]: [soup.body] is [None], which has no [prettify]. The
    function does not return the empty string for the empty input, and does
    not take the whole input as the body. *)
Theorem GetNoteText_without_body_raises (markup : value) (sp : soup) :
  BeautifulSoup markup = Return sp ->
  soup_body sp = None ->
  _GetNoteText markup = Raise AttributeError.
Proof. intros H1 H2. unfold _GetNoteText. now rewrite H1, H2. Qed.


(** C3, as the code has it: of a row whose markup is sanitized, the event of
    the last-modified timestamp is produced, as the second event, exactly
    when that value is true in Python's sense, which 0.0 is not. *)
Theorem modified_event_iff_truthy (query : string) (row : Row) (text : string) :
  _GetNoteText (_GetRowValue row "zhtmlstring") = Return text ->
  ((exists event event_data,
      nth_error (row_events query row) 1 = Some (event, event_data)
      /\ date_time event = mkCocoaTime (_GetRowValue row "last_modified_time"))
   <-> truthy (_GetRowValue row "last_modified_time") = true)
  /\ truthy VNone = false
  /\ truthy (VFloat 0%float) = false.
Proof.
  intros H. rewrite (row_events_returns query row text H).
  split; [|split; reflexivity].
  destruct (truthy (_GetRowValue row "last_modified_time")); cbn [nth_error].
  - split; [reflexivity|]. intros _.
    exists (modified_event_of row), (event_data_of row text). now split.
  - split; [|discriminate]. intros [ev [ed [Hn _]]]. discriminate Hn.
Qed.

(** C4: of a row whose markup is sanitized and whose last-modified timestamp
    is true, the second event carries that timestamp under the description
    [TIME_DESCRIPTION_LAST_USED], which is not the LAST_MODIFIED kind. *)
Theorem modified_event_is_last_used (query : string) (row : Row) (text : string) :
  _GetNoteText (_GetRowValue row "zhtmlstring") = Return text ->
  truthy (_GetRowValue row "last_modified_time") = true ->
  exists event event_data,
    nth_error (row_events query row) 1 = Some (event, event_data)
    /\ date_time event = mkCocoaTime (_GetRowValue row "last_modified_time")
    /\ timestamp_desc event = TIME_DESCRIPTION_LAST_USED
    /\ kind_of (timestamp_desc event) <> Some LAST_MODIFIED.
Proof.
  intros H Ht. rewrite (row_events_returns query row text H), Ht.
  exists (modified_event_of row), (event_data_of row text).
  cbn. repeat split. discriminate.
Qed.

(** C5, as the code has it: a row that has a creation timestamp and whose
    markup is sanitized produces its creation event first; the event of the
    last-modified timestamp follows, with the same event data, when that
    value is true, and nothing follows when it is absent or zero. *)
Theorem one_or_two_events (query : string) (row : Row) (text : string) :
  _GetRowValue row "timestamp" <> VNone ->
  _GetNoteText (_GetRowValue row "zhtmlstring") = Return text ->
  exists created modified event_data,
    row_events query row
    = (created, event_data)
        :: (if truthy (_GetRowValue row "last_modified_time")
            then [(modified, event_data)] else [])
    /\ date_time created = mkCocoaTime (_GetRowValue row "timestamp")
    /\ kind_of (timestamp_desc created) = Some CREATION
    /\ date_time modified = mkCocoaTime (_GetRowValue row "last_modified_time")
    /\ List.length (row_events query row)
       = (if truthy (_GetRowValue row "last_modified_time") then 2 else 1)%nat.
Proof.
  intros _ H. rewrite (row_events_returns query row text H).
  exists (create_event_of row), (modified_event_of row), (event_data_of row text).
  repeat split.
  now destruct (truthy (_GetRowValue row "last_modified_time")).
Qed.

(** C6, as the code has it: when the serialized body is made of lines that
    hold a listed tag, each on one line, or text without ["<"], the note
    text is what is left of them: the indentation of the tag lines and the
    text lines unchanged. It holds no ["<"], and every text line is in it. *)
Theorem listed_tags_on_one_line_are_stripped
  (markup : value) (sp : soup) (b : element) (ls : list line) :
  BeautifulSoup markup = Return sp ->
  soup_body sp = Some b ->
  prettify b = unlines (map render_line ls) ->
  forallb allowed_line ls = true ->
  _GetNoteText markup = Return (residue ls)
  /\ contains_char "<" (residue ls) = false
  /\ forall text, In (TextLine text) ls -> contains text (residue ls) = true.
Proof.
  intros H1 H2 Hp Hls. rewrite (GetNoteText_body markup sp b H1 H2), Hp.
  rewrite (re_sub_allowed ls Hls). split; [reflexivity|].
  split; [now apply residue_no_lt | intros text; apply residue_keeps_text].
Qed.



End Claims.

(** ** The properties at concrete inputs *)

Lemma GetNoteText_without_body_raises_witness :
  @BeautifulSoup html_parser (VStr "") = Return (Bs4.parse "")
  /\ @soup_body html_parser (Bs4.parse "") = None
  /\ @_GetNoteText html_parser (VStr "") = Raise AttributeError.
Proof.
  split; [reflexivity|]. split; [reflexivity|].
  apply (@GetNoteText_without_body_raises html_parser (VStr "") (Bs4.parse ""));
    reflexivity.
Defined.


(** C3: the claim fails on a row edited at 0.0: the value is not absent, and
    the only event is the creation event. *)
Lemma row_edited_at_zero_has_no_modified_event :
  _GetRowValue row_edited_at_zero "last_modified_time" = VFloat 0%float
  /\ VFloat 0%float <> VNone
  /\ map (fun e => timestamp_desc (fst e))
         (@row_events html_parser "" row_edited_at_zero)
     = [TIME_DESCRIPTION_CREATION].
Proof. split; [reflexivity|]. split; [discriminate | reflexivity]. Qed.

Lemma modified_event_iff_truthy_witness :
  @_GetNoteText html_parser (_GetRowValue row_edited "zhtmlstring")
  = Return ("   Milk" ++ nl ++ " ")
  /\ ((exists event event_data,
         nth_error (@row_events html_parser "" row_edited) 1
         = Some (event, event_data)
         /\ date_time event
            = mkCocoaTime (_GetRowValue row_edited "last_modified_time"))
      <-> truthy (_GetRowValue row_edited "last_modified_time") = true)
  /\ truthy VNone = false
  /\ truthy (VFloat 0%float) = false.
Proof.
  split; [reflexivity|].
  apply (@modified_event_iff_truthy html_parser "" row_edited
           ("   Milk" ++ nl ++ " ")).
  reflexivity.
Defined.

Lemma modified_event_is_last_used_witness :
  truthy (_GetRowValue row_edited "last_modified_time") = true
  /\ exists event event_data,
       nth_error (@row_events html_parser "" row_edited) 1
       = Some (event, event_data)
       /\ date_time event
          = mkCocoaTime (_GetRowValue row_edited "last_modified_time")
       /\ timestamp_desc event = TIME_DESCRIPTION_LAST_USED
       /\ kind_of (timestamp_desc event) <> Some LAST_MODIFIED.
Proof.
  split; [reflexivity|].
  apply (@modified_event_is_last_used html_parser "" row_edited
           ("   Milk" ++ nl ++ " ")); reflexivity.
Defined.

(** C5: the claim fails on a row that has both timestamps, the last-modified
    one being 0.0: one event is produced, not two. *)
Lemma row_edited_at_zero_has_one_event :
  _GetRowValue row_edited_at_zero "timestamp" <> VNone
  /\ _GetRowValue row_edited_at_zero "last_modified_time" <> VNone
  /\ List.length (@row_events html_parser "" row_edited_at_zero) = 1%nat.
Proof. split; [discriminate|]. split; [discriminate | reflexivity]. Qed.

Lemma one_or_two_events_witness :
  _GetRowValue row_edited "timestamp" <> VNone
  /\ exists created modified event_data,
       @row_events html_parser "" row_edited
       = (created, event_data)
           :: (if truthy (_GetRowValue row_edited "last_modified_time")
               then [(modified, event_data)] else [])
       /\ date_time created = mkCocoaTime (_GetRowValue row_edited "timestamp")
       /\ kind_of (timestamp_desc created) = Some CREATION
       /\ date_time modified
          = mkCocoaTime (_GetRowValue row_edited "last_modified_time")
       /\ List.length (@row_events html_parser "" row_edited)
          = (if truthy (_GetRowValue row_edited "last_modified_time")
             then 2 else 1)%nat.
Proof.
  split; [discriminate|].
  apply (@one_or_two_events html_parser "" row_edited ("   Milk" ++ nl ++ " ")).
  - discriminate.
  - reflexivity.
Defined.

(** C6: the claim fails on markup whose only tags are [body] and [div], the
    [div] having an attribute value of two lines: its opening tag stays in
    the note text. *)
Lemma split_tag_is_not_stripped :
  forallb (Bs4.all_tags listed) (Bs4.parse split_tag_markup) = true
  /\ exists text,
       @_GetNoteText html_parser (VStr split_tag_markup) = Return text
       /\ contains "<div" text = true.
Proof.
  split; [reflexivity|]. eexists. split; reflexivity.
Qed.

Lemma listed_tags_on_one_line_are_stripped_witness :
  forallb allowed_line milk_lines = true
  /\ @_GetNoteText html_parser (VStr milk_markup) = Return (residue milk_lines)
  /\ contains_char "<" (residue milk_lines) = false
  /\ forall text, In (TextLine text) milk_lines ->
       contains text (residue milk_lines) = true.
Proof.
  split; [reflexivity|].
  eapply (@listed_tags_on_one_line_are_stripped html_parser (VStr milk_markup));
    reflexivity.
Defined.




(** ** Further properties of the substitution *)

Lemma sub_scan_subseq (r : regex) (s : string) :
  forall n, subseq (sub_scan r n s) s.
Proof.
  induction s as [|c s IH]; intros n; [constructor|].
  destruct n as [|n].
  - rewrite sub_scan_0. destruct (re_match r (String c s)) as [rest|].
    + destruct (Nat.eqb (String.length (String c s)) (String.length rest)).
      * apply subseq_keep, IH.
      * apply subseq_drop, IH.
    + apply subseq_keep, IH.
  - cbn [sub_scan]. apply subseq_drop, IH.
Qed.

Lemma subseq_length (a b : string) :
  subseq a b -> (String.length a <= String.length b)%nat.
Proof. induction 1; cbn [String.length]; lia. Qed.

Section SubstitutionFacts.

Context {bs4 : MarkupLibrary}.

(** X2: the note text is the serialized body with some characters left
    out: the substitution only removes, it adds and reorders nothing, so the
    note text is never longer than the serialized body. *)
Theorem note_text_is_subsequence (markup : value) (text : string) :
  _GetNoteText markup = Return text ->
  exists sp b,
    BeautifulSoup markup = Return sp
    /\ soup_body sp = Some b
    /\ subseq text (prettify b)
    /\ (String.length text <= String.length (prettify b))%nat.
Proof.
  unfold _GetNoteText. intros H.
  destruct (BeautifulSoup markup) as [sp|e] eqn:E1; [|discriminate].
  destruct (soup_body sp) as [b|] eqn:E2; [|discriminate].
  inversion H. subst text. exists sp, b.
  pose proof (sub_scan_subseq tag_pattern (prettify b) 0) as Hs.
  split; [reflexivity|]. split; [exact E2|].
  split; [exact Hs | now apply subseq_length].
Qed.

End SubstitutionFacts.

Lemma note_text_is_subsequence_witness :
  exists sp b,
    @BeautifulSoup html_parser (VStr milk_markup) = Return sp
    /\ @soup_body html_parser sp = Some b
    /\ subseq ("   Milk" ++ nl ++ " ") (@prettify html_parser b)
    /\ (String.length ("   Milk" ++ nl ++ " ")
        <= String.length (@prettify html_parser b))%nat.
Proof.
  apply (@note_text_is_subsequence html_parser (VStr milk_markup)).
  reflexivity.
Defined.

Lemma complete_lines_break (l : string) : complete_lines (l ++ nl) = true.
Proof.
  unfold complete_lines.
  assert (H : Bs4.last_char (l ++ nl) = Some newline).
  { induction l as [|c l IH]; [reflexivity|].
    cbn [append Bs4.last_char]. rewrite IH.
    destruct (l ++ nl) eqn:E; [|reflexivity].
    destruct l; discriminate. }
  now rewrite H.
Qed.

(** X3: the substitution works line by line: the note text of a text made
    of lines is what the substitution makes of each line with its line
    break, one after the other, then of the unfinished last line. *)
Theorem re_sub_line_by_line (ls : list string) (last : string) :
  re_sub tag_pattern (with_breaks ls ++ last)
  = line_by_line ls ++ re_sub tag_pattern last.
Proof.
  induction ls as [|l ls IH]; [reflexivity|].
  cbn [with_breaks line_by_line].
  replace ((l ++ nl ++ with_breaks ls) ++ last)
    with ((l ++ nl) ++ (with_breaks ls ++ last))
    by (now rewrite !app_assoc_s).
  rewrite (re_sub_lines (l ++ nl) _ (complete_lines_break l)), IH.
  now rewrite app_assoc_s.
Qed.

(** ** What the pattern matches *)

Lemma after_gt_gt (tail : string) :
  after_gt (String ">" tail) = Some (eat_newline tail).
Proof.
  destruct tail as [|c t]; [reflexivity|].
  unfold after_gt. cbn. unfold is_newline.
  now destruct (Ascii.eqb c newline).
Qed.

Lemma after_gt_inv (s r : string) :
  after_gt s = Some r ->
  exists tail, s = String ">" tail /\ r = eat_newline tail.
Proof.
  destruct s as [|c t]; [discriminate|].
  destruct (Ascii.eqb c ">") eqn:E.
  - apply Ascii.eqb_eq in E. subst c. rewrite after_gt_gt.
    intros H. inversion H. now exists t.
  - unfold after_gt. cbn [rmatch]. now rewrite E.
Qed.

Lemma star_dot_none_line (y : string) :
  star_dot y after_gt = None -> line_without_gt y = true.
Proof.
  induction y as [|c y IH]; [reflexivity|].
  cbn [star_dot line_without_gt]. destruct (is_newline c); [reflexivity|].
  destruct (star_dot y after_gt) eqn:E; [discriminate|].
  intros H. rewrite (IH eq_refl), andb_true_r.
  destruct (Ascii.eqb c ">") eqn:Ec; [|reflexivity].
  apply Ascii.eqb_eq in Ec. subst c. now rewrite after_gt_gt in H.
Qed.

Lemma star_dot_line_none (y : string) :
  line_without_gt y = true -> star_dot y after_gt = None.
Proof.
  induction y as [|c y IH]; [reflexivity|].
  cbn [star_dot line_without_gt]. destruct (is_newline c) eqn:En.
  - intros _. unfold after_gt. cbn [rmatch].
    destruct (Ascii.eqb c ">") eqn:Ec; [|reflexivity].
    apply Ascii.eqb_eq in Ec. subst c. discriminate En.
  - intros H. apply andb_true_iff in H. destruct H as [Hc Hy].
    rewrite (IH Hy). apply negb_true_iff in Hc.
    unfold after_gt. cbn [rmatch]. now rewrite Hc.
Qed.

(** [.*>\n?] runs to the last [">"] of the line. *)
Lemma after_name_last (x tail : string) :
  contains_char newline x = false ->
  line_without_gt tail = true ->
  after_name (x ++ String ">" tail) = Some (eat_newline tail).
Proof.
  intros Hx Ht. unfold after_name.
  induction x as [|a x IH].
  - cbn [append star_dot]. change (is_newline ">") with false. cbv iota.
    rewrite (star_dot_line_none tail Ht). apply after_gt_gt.
  - cbn [contains_char] in Hx. apply orb_false_iff in Hx. destruct Hx as [Ha Hx].
    cbn [append star_dot]. unfold is_newline at 1. rewrite Ha.
    now rewrite (IH Hx).
Qed.

Lemma after_name_inv (y r : string) :
  after_name y = Some r ->
  exists x tail,
    y = x ++ String ">" tail
    /\ contains_char newline x = false
    /\ line_without_gt tail = true
    /\ r = eat_newline tail.
Proof.
  unfold after_name. induction y as [|c y IH]; [discriminate|].
  cbn [star_dot]. destruct (is_newline c) eqn:En.
  - intros H. destruct (after_gt_inv _ _ H) as [tail [E _]].
    inversion E. subst c. discriminate En.
  - destruct (star_dot y after_gt) as [r'|] eqn:Es.
    + intros H. inversion H. subst r'.
      destruct (IH eq_refl) as [x [tail [-> [Hx [Ht ->]]]]].
      exists (String c x), tail. repeat split; [|exact Ht].
      cbn [contains_char]. unfold is_newline in En. now rewrite En, Hx.
    + intros H. destruct (after_gt_inv _ _ H) as [tail [E ->]].
      inversion E. subst c tail. exists "", y.
      repeat split. now apply star_dot_none_line.
Qed.

Lemma alt_lit_inv (q : string) (r' : regex) (y r : string)
  (k : string -> option string) :
  rmatch (Alt (Lit q) r') y k = Some r ->
  (exists y', prefix_drop q y = Some y' /\ k y' = Some r)
  \/ rmatch r' y k = Some r.
Proof.
  cbn [rmatch]. destruct (prefix_drop q y) as [y'|]; [|now right].
  destruct (k y') as [r0|] eqn:E; [|now right].
  intros H. inversion H. subst r0. left. now exists y'.
Qed.

Lemma alternatives_inv (y r : string) (k : string -> option string) :
  rmatch tag_alternatives y k = Some r ->
  exists p y', In p tag_names /\ prefix_drop p y = Some y' /\ k y' = Some r.
Proof.
  unfold tag_alternatives, tag_names. intros H.
  repeat (apply alt_lit_inv in H;
          destruct H as [[y' [Hd Hk]] | H];
          [match type of Hd with
           | prefix_drop ?q _ = _ => exists q, y'; cbn [In]; tauto
           end|]).
  cbn [rmatch] in H.
  destruct (prefix_drop "p" y) as [y'|] eqn:E; [|discriminate].
  exists "p", y'. cbn [In]. tauto.
Qed.

Lemma listed_word (p : string) : In p tag_names -> listed p = true.
Proof.
  intros H. unfold listed. apply existsb_exists. exists p.
  split; [exact H | apply String.eqb_refl].
Qed.

Lemma re_match_shape (s rest : string) :
  re_match tag_pattern s = Some rest ->
  exists closing p x tail,
    In p tag_names
    /\ s = tag_marker closing p x ++ tail
    /\ contains_char newline x = false
    /\ line_without_gt tail = true
    /\ rest = eat_newline tail.
Proof.
  intros H. destruct s as [|c s]; [discriminate|].
  destruct (Ascii.eqb c "<") eqn:Ec.
  2:{ rewrite re_match_not_lt in H; [discriminate|].
      unfold has_prefix. cbn [prefix_drop]. now rewrite Ascii.eqb_sym, Ec. }
  apply Ascii.eqb_eq in Ec. subst c.
  rewrite tag_pattern_unfold, rmatch_opt in H.
  assert (Hk : forall y, rmatch tag_alternatives y after_name = Some rest ->
            exists p x tail, In p tag_names /\ y = p ++ x ++ String ">" tail
              /\ contains_char newline x = false
              /\ line_without_gt tail = true /\ rest = eat_newline tail).
  { intros y Hy. destruct (alternatives_inv _ _ _ Hy) as [p [y' [Hp [Hd Ha]]]].
    destruct (after_name_inv _ _ Ha) as [x [tail [-> [Hx [Ht ->]]]]].
    exists p, x, tail. apply prefix_drop_sound in Hd. now repeat split. }
  destruct (rmatch (Chr "/") s
              (fun s0 => rmatch tag_alternatives s0 after_name)) as [r0|] eqn:E.
  - inversion H. subst r0. destruct s as [|d s]; [discriminate|].
    cbn [rmatch] in E. destruct (Ascii.eqb d "/") eqn:Ed; [|discriminate].
    apply Ascii.eqb_eq in Ed. subst d.
    destruct (Hk _ E) as [p [x [tail [Hp [-> [Hx [Ht ->]]]]]]].
    exists true, p, x, tail. rewrite tag_marker_app. cbn [append].
    now rewrite app_assoc_s.
  - destruct (Hk _ H) as [p [x [tail [Hp [-> [Hx [Ht ->]]]]]]].
    exists false, p, x, tail. rewrite tag_marker_app. cbn [append].
    now rewrite app_assoc_s.
Qed.

Lemma re_match_listed (closing : bool) (p x tail : string) :
  In p tag_names ->
  contains_char newline x = false ->
  line_without_gt tail = true ->
  re_match tag_pattern (tag_marker closing p x ++ tail)
  = Some (eat_newline tail).
Proof.
  intros Hp Hx Ht.
  pose proof (listed_begins p (listed_word p Hp)) as Hb.
  rewrite tag_marker_app, tag_pattern_unfold, rmatch_opt.
  assert (Hk : rmatch tag_alternatives ((p ++ x) ++ String ">" tail) after_name
               = Some (eat_newline tail)).
  { apply alternatives_some.
    - intros q y Hq Hy.
      assert (Hgt : contains_char ">" q = false)
        by (apply tag_names_plain; [reflexivity | exact Hq]).
      destruct (prefix_drop_before ">" q (p ++ x) tail y Hgt Hy)
        as [x' [Hx' ->]].
      apply after_name_last; [|exact Ht].
      pose proof (listed_one_line p x (listed_word p Hp) Hx) as Hn.
      apply prefix_drop_sound in Hx'. rewrite Hx', contains_char_app in Hn.
      now apply orb_false_iff in Hn.
    - rewrite app_assoc_s. now apply begins_with_listed_app. }
  destruct closing; cbn [append].
  - cbn [rmatch]. change (Ascii.eqb "/" "/") with true. cbv iota.
    now rewrite Hk.
  - rewrite (app_assoc_s p) at 1.
    rewrite (begins_with_listed_no_slash p _ _ Hb). exact Hk.
Qed.

(** X1: the pattern matches at the start of a text exactly when the text
    begins with ["<"], an optional ["/"], a listed name and, further on the
    same line, a [">"]; the match then runs to the last [">"] of that line
    and takes the line break that follows it, if any. *)
Theorem tag_pattern_matches_iff (s rest : string) :
  re_match tag_pattern s = Some rest
  <-> exists closing p x tail,
        In p tag_names
        /\ s = tag_marker closing p x ++ tail
        /\ contains_char newline x = false
        /\ line_without_gt tail = true
        /\ rest = eat_newline tail.
Proof.
  split; [apply re_match_shape|].
  intros [closing [p [x [tail [Hp [-> [Hx [Ht ->]]]]]]]].
  now apply re_match_listed.
Qed.

Lemma eat_newline_length (tail : string) :
  (String.length (eat_newline tail) <= String.length tail)%nat.
Proof.
  destruct tail as [|c t]; [reflexivity|].
  cbn [eat_newline]. destruct (is_newline c); cbn [String.length]; lia.
Qed.

(** A match of the pattern is never empty. *)
Lemma re_match_shorter (s rest : string) :
  re_match tag_pattern s = Some rest ->
  (String.length rest < String.length s)%nat.
Proof.
  intros H.
  destruct (re_match_shape s rest H) as [closing [p [x [tail [_ [-> [_ [_ ->]]]]]]]].
  rewrite tag_marker_app. cbn [String.length]. rewrite !length_app_s.
  cbn [String.length]. pose proof (eat_newline_length tail). lia.
Qed.

Lemma sub_scan_length (r : regex) (n : nat) (s : string) :
  (String.length (sub_scan r n s) <= String.length s)%nat.
Proof. apply subseq_length, sub_scan_subseq. Qed.

(** Where the pattern matches somewhere, the substitution removes something. *)
Lemma sub_scan_shrinks (a b rest : string) :
  re_match tag_pattern b = Some rest ->
  (String.length (sub_scan tag_pattern 0 (a ++ b)) < String.length (a ++ b))%nat.
Proof.
  intros H. induction a as [|c a IH].
  - cbn [append]. destruct b as [|c b]; [discriminate|].
    rewrite sub_scan_0, H. pose proof (re_match_shorter _ _ H) as Hlt.
    replace (Nat.eqb (String.length (String c b)) (String.length rest))
      with false by (symmetry; apply Nat.eqb_neq; lia).
    pose proof (sub_scan_length tag_pattern
                  (String.length b - String.length rest) b).
    cbn [String.length]. lia.
  - cbn [append]. rewrite sub_scan_0.
    destruct (re_match tag_pattern (String c (a ++ b))) as [rest'|] eqn:E.
    + pose proof (re_match_shorter _ _ E) as Hlt.
      replace (Nat.eqb (String.length (String c (a ++ b))) (String.length rest'))
        with false by (symmetry; apply Nat.eqb_neq; lia).
      pose proof (sub_scan_length tag_pattern
                    (String.length (a ++ b) - String.length rest') (a ++ b)).
      cbn [String.length]. lia.
    + cbn [String.length]. lia.
Qed.

Lemma sub_scan_no_match (s : string) :
  (forall a b, s = a ++ b -> re_match tag_pattern b = None) ->
  sub_scan tag_pattern 0 s = s.
Proof.
  induction s as [|c s IH]; intros H; [reflexivity|].
  rewrite sub_scan_0, (H "" (String c s) eq_refl). f_equal.
  apply IH. intros a b E. apply (H (String c a) b). cbn [append]. now rewrite E.
Qed.

(** X4: the substitution leaves a text unchanged exactly when the pattern
    matches at none of its positions; one match anywhere makes the result
    shorter. *)
Theorem re_sub_unchanged_iff (s : string) :
  re_sub tag_pattern s = s
  <-> forall a b, s = a ++ b -> re_match tag_pattern b = None.
Proof.
  unfold re_sub. split.
  - intros E a b ->. destruct (re_match tag_pattern b) as [rest|] eqn:Hm;
      [|reflexivity].
    pose proof (sub_scan_shrinks a b rest Hm) as Hlt. rewrite E in Hlt. lia.
  - apply sub_scan_no_match.
Qed.

(** ** Further properties of the row handler *)

Section RowFacts.

Context {bs4 : MarkupLibrary}.

(** X5: the sanitizer runs before anything is handed to the mediator: when
    it raises on the row's markup, the handler raises the same exception and
    leaves the mediator as it was; a row that has handed over an event is
    one whose markup was sanitized; and no row hands over more than two. *)
Theorem sanitizer_runs_before_events
  (query : string) (row : Row) (m : ParserMediator) :
  (forall e,
     _GetNoteText (_GetRowValue row "zhtmlstring") = Raise e ->
     ParseZHTMLSTRINGRow query row m = (Raise e, m))
  /\ (row_events query row <> [] ->
      exists text,
        _GetNoteText (_GetRowValue row "zhtmlstring") = Return text)
  /\ (List.length (row_events query row) <= 2)%nat.
Proof.
  split; [intros e He; now apply Parse_raises|].
  destruct (_GetNoteText (_GetRowValue row "zhtmlstring")) as [text|e0] eqn:E.
  - rewrite (row_events_returns query row text E). split.
    + intros _. now exists text.
    + destruct (truthy (_GetRowValue row "last_modified_time"));
        cbn [List.length]; lia.
  - unfold row_events. rewrite (Parse_raises query row [] e0 E). cbn [snd].
    split; [congruence | cbn [List.length]; lia].
Qed.

(** X6: every event a row produces carries the row's own values: the event
    data holds the title and the markup of the row unchanged, the date is
    built from the creation or from the last-modified column, and the events
    of one row share one event data. *)
Theorem events_carry_row_values
  (query : string) (row : Row)
  (event : DateTimeValuesEvent) (event_data : MacNotesZhtmlstringEventData) :
  In (event, event_data) (row_events query row) ->
  title event_data = _GetRowValue row "title"
  /\ zhtmlstring event_data = _GetRowValue row "zhtmlstring"
  /\ (date_time event = mkCocoaTime (_GetRowValue row "timestamp")
      \/ date_time event = mkCocoaTime (_GetRowValue row "last_modified_time"))
  /\ forall event' event_data',
       In (event', event_data') (row_events query row) ->
       event_data' = event_data.
Proof.
  destruct (_GetNoteText (_GetRowValue row "zhtmlstring")) as [text|e0] eqn:E.
  - rewrite (row_events_returns query row text E).
    assert (Hall : forall ev ed,
              In (ev, ed)
                 ((create_event_of row, event_data_of row text)
                    :: (if truthy (_GetRowValue row "last_modified_time")
                        then [(modified_event_of row, event_data_of row text)]
                        else [])) ->
              ed = event_data_of row text
              /\ (ev = create_event_of row \/ ev = modified_event_of row)).
    { intros ev ed Hin.
      destruct (truthy (_GetRowValue row "last_modified_time"));
        cbn [In] in Hin; intuition congruence. }
    intros Hin. destruct (Hall _ _ Hin) as [-> Hev].
    split; [reflexivity|]. split; [reflexivity|]. split.
    + destruct Hev as [-> | ->]; [now left | now right].
    + intros ev' ed' Hin'. now destruct (Hall _ _ Hin') as [-> _].
  - unfold row_events. rewrite (Parse_raises query row [] e0 E).
    intros Hin. contradiction.
Qed.

End RowFacts.

Lemma events_carry_row_values_witness :
  title (event_data_of row_edited ("   Milk" ++ nl ++ " "))
  = _GetRowValue row_edited "title"
  /\ zhtmlstring (event_data_of row_edited ("   Milk" ++ nl ++ " "))
     = _GetRowValue row_edited "zhtmlstring"
  /\ (date_time (modified_event_of row_edited)
      = mkCocoaTime (_GetRowValue row_edited "timestamp")
      \/ date_time (modified_event_of row_edited)
         = mkCocoaTime (_GetRowValue row_edited "last_modified_time"))
  /\ forall event' event_data',
       In (event', event_data') (@row_events html_parser "" row_edited) ->
       event_data' = event_data_of row_edited ("   Milk" ++ nl ++ " ").
Proof.
  apply (@events_carry_row_values html_parser "" row_edited
           (modified_event_of row_edited)).
  right. left. reflexivity.
Defined.

(** ** One cut per line *)

Lemma line_with_gt (y tail : string) :
  contains_char newline y = false ->
  line_without_gt (y ++ String ">" tail) = false.
Proof.
  intros Hy. induction y as [|c y IH]; [reflexivity|].
  cbn [contains_char] in Hy. apply orb_false_iff in Hy. destruct Hy as [Hc Hy].
  cbn [append line_without_gt]. unfold is_newline. rewrite Hc, (IH Hy).
  apply andb_false_r.
Qed.

(** Without a [">"] on its first line, a text is not matched. *)
Lemma re_match_without_gt (s : string) :
  line_without_gt s = true -> re_match tag_pattern s = None.
Proof.
  intros H. destruct (re_match tag_pattern s) as [rest|] eqn:E; [|reflexivity].
  destruct (re_match_shape s rest E) as [closing [p [x [tail [Hp [-> [Hx _]]]]]]].
  rewrite tag_marker_app in H. cbn [line_without_gt] in H.
  change (is_newline "<") with false in H. cbn [negb andb Ascii.eqb] in H.
  rewrite <- app_assoc_s in H.
  rewrite line_with_gt in H; [discriminate|].
  rewrite !contains_char_app, Hx, orb_false_r.
  rewrite (tag_names_plain newline eq_refl p Hp), orb_false_r.
  now destruct closing.
Qed.

(** The end of a line that holds no [">"] goes through unchanged. *)
Lemma sub_scan_line_end (c more : string) :
  contains_char newline c = false ->
  contains_char ">" c = false ->
  sub_scan tag_pattern 0 (c ++ nl ++ more)
  = c ++ nl ++ sub_scan tag_pattern 0 more.
Proof.
  intros Hn Hg. induction c as [|d c IH].
  - cbn [append nl]. rewrite sub_scan_0, re_match_not_lt; reflexivity.
  - cbn [contains_char] in Hn, Hg.
    apply orb_false_iff in Hn. destruct Hn as [Hdn Hn].
    apply orb_false_iff in Hg. destruct Hg as [Hdg Hg].
    cbn [append]. rewrite sub_scan_0, re_match_without_gt.
    + now rewrite (IH Hn Hg).
    + clear IH. cbn [line_without_gt]. unfold is_newline. rewrite Hdn, Hdg.
      cbn [negb andb]. induction c as [|e c IHc]; [reflexivity|].
      cbn [contains_char] in Hn, Hg.
      apply orb_false_iff in Hn. destruct Hn as [Hen Hn].
      apply orb_false_iff in Hg. destruct Hg as [Heg Hg].
      cbn [append line_without_gt]. unfold is_newline. rewrite Hen, Heg.
      cbn [negb andb]. now apply IHc.
Qed.

Lemma line_end_without_gt (c more : string) :
  contains_char newline c = false ->
  contains_char ">" c = false ->
  line_without_gt (c ++ nl ++ more) = true.
Proof.
  intros Hn Hg. induction c as [|e c IHc]; [reflexivity|].
  cbn [contains_char] in Hn, Hg.
  apply orb_false_iff in Hn. destruct Hn as [Hen Hn].
  apply orb_false_iff in Hg. destruct Hg as [Heg Hg].
  cbn [append line_without_gt]. unfold is_newline. rewrite Hen, Heg.
  cbn [negb andb]. now apply IHc.
Qed.

(** X7: on a line, the substitution cuts once, from the first tag that
    begins with a listed name to the last [">"] of the line: what stands
    before the tag and what stands after that [">"] is kept, and all that
    lies between, text included, is removed; the line break goes only when
    nothing is left behind the cut. *)
Theorem line_is_cut_once
  (a c more : string) (closing : bool) (p x : string) :
  In p tag_names ->
  contains_char "<" a = false ->
  contains_char newline x = false ->
  contains_char newline c = false ->
  contains_char ">" c = false ->
  re_sub tag_pattern (a ++ tag_marker closing p x ++ c ++ nl ++ more)
  = a ++ (if Bs4.is_empty c then "" else c ++ nl) ++ re_sub tag_pattern more.
Proof.
  intros Hp Ha Hx Hcn Hcg. unfold re_sub.
  rewrite (sub_scan_plain a _ Ha). f_equal.
  pose proof (re_match_listed closing p x (c ++ nl ++ more) Hp Hx
                (line_end_without_gt c more Hcn Hcg)) as Hm.
  assert (Hne : tag_marker closing p x <> "")
    by (unfold tag_marker; cbn [append]; discriminate).
  destruct c as [|d c].
  - cbn [append nl eat_newline Bs4.is_empty] in *.
    change (is_newline newline) with true in Hm. cbv iota in Hm.
    apply (sub_scan_match _ _ (tag_marker closing p x ++ nl) more Hm).
    + now rewrite app_assoc_s.
    + destruct (tag_marker closing p x); [congruence | discriminate].
  - cbn [contains_char] in Hcn. apply orb_false_iff in Hcn.
    destruct Hcn as [Hdn Hcn'].
    assert (He : eat_newline (String d c ++ nl ++ more) = String d c ++ nl ++ more).
    { cbn [append eat_newline]. unfold is_newline. now rewrite Hdn. }
    rewrite He in Hm.
    rewrite (sub_scan_match _ _ (tag_marker closing p x) _ Hm eq_refl Hne).
    cbn [Bs4.is_empty]. rewrite sub_scan_line_end.
    + now rewrite !app_assoc_s.
    + cbn [contains_char]. now rewrite Hdn, Hcn'.
    + exact Hcg.
Qed.

Lemma line_is_cut_once_witness :
  re_sub tag_pattern
    ("note: " ++ tag_marker false "b" ">bold</b" ++ " tail" ++ nl ++ "next")
  = "note: " ++ (if Bs4.is_empty " tail" then "" else " tail" ++ nl)
    ++ re_sub tag_pattern "next".
Proof.
  apply (line_is_cut_once "note: " " tail" "next" false "b" ">bold</b");
    [cbn; tauto | reflexivity | reflexivity | reflexivity | reflexivity].
Defined.

Lemma sanitizer_runs_before_events_witness :
  @_GetNoteText html_parser (_GetRowValue row_without_markup "zhtmlstring")
  = Raise TypeError
  /\ @ParseZHTMLSTRINGRow html_parser "" row_without_markup []
     = (Raise TypeError, [])
  /\ @row_events html_parser "" row_edited <> []
  /\ exists text,
       @_GetNoteText html_parser (_GetRowValue row_edited "zhtmlstring")
       = Return text.
Proof.
  split; [reflexivity|]. split.
  - apply (proj1 (@sanitizer_runs_before_events html_parser
                    "" row_without_markup [])).
    reflexivity.
  - split; [vm_compute; discriminate|].
    apply (proj1 (proj2 (@sanitizer_runs_before_events html_parser
                           "" row_edited []))).
    vm_compute. discriminate.
Defined.
